(** * celery.worker.pidbox: the worker's remote-control mailbox

    A shallow embedding of [celery/worker/pidbox.py] (class [Pidbox]) and
    of the lifecycle / dispatch properties stated about it.

    The Python methods mutate [self] and talk to the broker; here they are
    computations in a small state-and-exception monad over a record holding
    the [Pidbox] object and the observable world (logical clock, object
    identities, the trace of effects). *)

From stdpp Require Import base option list gmap strings.

Set Default Proof Using "Type".
Open Scope string_scope.
Open Scope list_scope.

(** ** Python exceptions

    Only the part of the class hierarchy that the [except] clauses of
    [on_message] can tell apart: [KeyError] is an [Exception];
    [SystemExit] and [KeyboardInterrupt] derive from [BaseException]
    only. *)

Inductive exn : Type :=
| KeyError (key : string)
| TransportError (msg : string)
| OtherException (cls msg : string)
| SystemExit (msg : string)
| KeyboardInterrupt.

Definition isinstance_KeyError (e : exn) : bool :=
  match e with KeyError _ => true | _ => false end.

Definition isinstance_Exception (e : exn) : bool :=
  match e with
  | KeyError _ | TransportError _ | OtherException _ _ => true
  | SystemExit _ | KeyboardInterrupt => false
  end.

(** ** The objects the mailbox holds *)

(** A callable stored by reference. *)
Inductive callback : Type :=
| Pidbox_on_message
| Callable (name : string).

(** The worker consumer [c] handed to [Pidbox]: what the class reads
    from it ([c.hostname], [c.connection], [c.on_decode_error]). *)
Record Ctx : Type := {
  c_hostname : string;
  c_connection : nat;
  c_on_decode_error : callback;
}.

(** A channel object: its identity and the connection it was opened on. *)
Record Channel : Type := {
  channel_id : nat;
  channel_connection : nat;
}.

(** A kombu consumer object. *)
Record Consumer : Type := {
  consumer_id : nat;
  consumer_channel : Channel;
  callbacks : list callback;
  on_decode_error : option callback;
}.

(** The decoded message body. *)
Record Body : Type := {
  command : string;
  arguments : list (string * string);
}.

(** [AttributeDict(app=c.app, hostname=c.hostname, consumer=c)]. *)
Record AttributeDict : Type := {
  state_hostname : string;
  state_consumer : Ctx;
}.

(** What calling a handler does: it returns a reply or raises. *)
Inductive outcome : Type :=
| Returns (reply : string)
| Raises (e : exn).

Abbreviation handler := (AttributeDict -> list (string * string) -> outcome).

(** [mailbox.Node]: the fields [Pidbox] touches. *)
Record Node : Type := {
  node_hostname : string;
  handlers : gmap string handler;
  node_state : AttributeDict;
  channel : option Channel;
}.

Record Pidbox : Type := {
  c : Ctx;
  hostname : string;
  node : Node;
  consumer : option Consumer;
}.

(** ** The observable world *)

Inductive event : Type :=
| ClockForward
| HandleMessage (body : Body)
| HandlerCalled (name : string) (args : list (string * string))
| LogError (fmt : string) (exc : exn) (exc_info : bool)
| LogDebug (msg : string)
| OnStop
| ChannelOpen (ch : Channel)
| ChannelOpenFailed (conn : nat) (e : exn)
| ConsumerCreated (k : Consumer)
| ChannelClose (ch : Channel) (raised : option exn)
| ConsumerCancel (k : Consumer) (raised : option exn).

Record World : Type := {
  clock : nat;
  fresh : nat;
  trace : list event;
}.

(** The broker's side: whether the next [connection.channel()],
    [channel.close()] or [consumer.cancel()] raises, given everything
    that happened so far. *)
Record Transport : Type := {
  channel_result : list event -> nat -> option exn;
  close_result : list event -> Channel -> option exn;
  cancel_result : list event -> Consumer -> option exn;
}.

Record Sys : Type := {
  box : Pidbox;
  world : World;
}.

(** ** State and exceptions *)

Inductive result (A : Type) : Type :=
| Ok (a : A)
| Raise (e : exn).
Arguments Ok {A} a.
Arguments Raise {A} e.

Definition M (A : Type) : Type := Sys -> result A * Sys.

Definition ret {A} (a : A) : M A := fun s => (Ok a, s).

Definition bind {A B} (m : M A) (k : A -> M B) : M B :=
  fun s =>
    match m s with
    | (Ok a, s') => k a s'
    | (Raise e, s') => (Raise e, s')
    end.

Definition raise {A} (e : exn) : M A := fun s => (Raise e, s).

(** [try: m except ...: h]: [h e] is [Some k] when a clause matches the
    exception, [None] when none does and the exception goes on. *)
Definition try_except {A} (m : M A) (h : exn -> option (M A)) : M A :=
  fun s =>
    match m s with
    | (Ok a, s') => (Ok a, s')
    | (Raise e, s') =>
        match h e with
        | Some k => k s'
        | None => (Raise e, s')
        end
    end.

Declare Scope py_scope.
Delimit Scope py_scope with py.
Notation "x <- m ;; k" := (bind m (fun x => k))
  (at level 100, m at next level, right associativity) : py_scope.
Notation "m ;; k" := (bind m (fun _ => k))
  (at level 100, right associativity) : py_scope.
Open Scope py_scope.

Definition emit (ev : event) : M unit :=
  fun s =>
    (Ok tt,
     {| box := box s;
        world := {| clock := clock (world s);
                    fresh := fresh (world s);
                    trace := trace (world s) ++ [ev] |} |}).

Definition get_box : M Pidbox := fun s => (Ok (box s), s).

Definition set_consumer (k : option Consumer) : M unit :=
  fun s =>
    (Ok tt,
     {| box := {| c := c (box s); hostname := hostname (box s);
                  node := node (box s); consumer := k |};
        world := world s |}).

Definition set_node_channel (ch : option Channel) : M unit :=
  fun s =>
    (Ok tt,
     {| box := {| c := c (box s); hostname := hostname (box s);
                  node := {| node_hostname := node_hostname (node (box s));
                             handlers := handlers (node (box s));
                             node_state := node_state (node (box s));
                             channel := ch |};
                  consumer := consumer (box s) |};
        world := world s |}).

(** A new Python object identity. *)
Definition new_id : M nat :=
  fun s =>
    (Ok (fresh (world s)),
     {| box := box s;
        world := {| clock := clock (world s);
                    fresh := S (fresh (world s));
                    trace := trace (world s) |} |}).

(** Logging. *)
Definition error (fmt : string) (exc : exn) (exc_info : bool) : M unit :=
  emit (LogError fmt exc exc_info).

Definition debug (msg : string) : M unit := emit (LogDebug msg).

Section Mailbox.

(** The broker the worker is connected to. *)
Variable T : Transport.

(** ** Collaborators outside [pidbox.py] *)

(** Modelled from the spec: the process-wide logical clock
    ([app.clock.forward], spec 6: [advance() -> void], monotonically
    increasing). *)
Definition forward : M nat :=
  fun s =>
    let t := S (clock (world s)) in
    (Ok t,
     {| box := box s;
        world := {| clock := t;
                    fresh := fresh (world s);
                    trace := trace (world s) ++ [ClockForward] |} |}).

(** Modelled from the spec: [openChannel(connection) -> Channel |
    TransportError] ([connection.channel()] of kombu). A channel that is
    opened is a new object. *)
Definition Connection_channel (conn : nat) : M Channel :=
  fun s =>
    match channel_result T (trace (world s)) conn with
    | Some e => (emit (ChannelOpenFailed conn e) ;; raise e) s
    | None =>
        (i <- new_id ;;
         let ch := {| channel_id := i; channel_connection := conn |} in
         emit (ChannelOpen ch) ;;
         ret ch) s
    end.

(** Modelled from the spec: [Channel.close()], which may raise. *)
Definition Channel_close (ch : Channel) : M unit :=
  fun s =>
    let r := close_result T (trace (world s)) ch in
    (emit (ChannelClose ch r) ;;
     match r with Some e => raise e | None => ret tt end) s.

(** Modelled from the spec: [Consumer.cancel()], which may raise. *)
Definition Consumer_cancel (k : Consumer) : M unit :=
  fun s =>
    let r := cancel_result T (trace (world s)) k in
    (emit (ConsumerCancel k r) ;;
     match r with Some e => raise e | None => ret tt end) s.

(** Modelled from the spec: [ignore_errors(conn, fun)] of kombu, the
    construct wrapped around close and cancel that swallows the errors
    they raise (spec 6: errors ignored; spec 9: swallows all errors). *)
Definition ignore_errors {A} (conn : Ctx) (f : M A) : M (option A) :=
  try_except (a <- f ;; ret (Some a)) (fun _ => Some (ret None)).

(** Modelled from the spec: [Node.listen(callback=...)] of kombu,
    [Channel.listen(address, onMessage, onDecodeError) -> Consumer]: a
    new consumer on the node's channel with the given callback. *)
Definition listen (cb : callback) : M Consumer :=
  p <- get_box ;;
  match channel (node p) with
  | Some ch =>
      i <- new_id ;;
      let k := {| consumer_id := i; consumer_channel := ch;
                  callbacks := [cb]; on_decode_error := None |} in
      emit (ConsumerCreated k) ;;
      ret k
  | None => raise (OtherException "AttributeError" "channel")
  end.

(** Modelled from the spec: [Node.handle_message(body, message)] of
    kombu (spec 4.4 steps 2-3, spec 6): the command name is looked up in
    the registry, [handlers[method]] raising [KeyError] when it is
    absent; a present handler is called with the shared state and the
    arguments, and what it raises goes up to the caller. *)
Definition handle_message (body : Body) : M string :=
  emit (HandleMessage body) ;;
  p <- get_box ;;
  match handlers (node p) !! command body with
  | None => raise (KeyError (command body))
  | Some h =>
      emit (HandlerCalled (command body) (arguments body)) ;;
      match h (node_state (node p)) (arguments body) with
      | Returns reply => ret reply
      | Raises e => raise e
      end
  end.

(** ** class Pidbox *)

(** [Pidbox.__init__(self, c)]; [Panel_data] is [control.Panel.data]. *)
Definition __init__ (Panel_data : gmap string handler) (c0 : Ctx) : Pidbox :=
  {| c := c0;
     hostname := c_hostname c0;
     node := {| node_hostname := c_hostname c0;
                handlers := Panel_data;
                node_state := {| state_hostname := c_hostname c0;
                                 state_consumer := c0 |};
                channel := None |};
     consumer := None |}.

(** [self._forward_clock], bound to [c.app.clock.forward] in [__init__]. *)
Definition _forward_clock : M nat := forward.

(** The last statement writes [on_decode_error] on the consumer object
    that [self.consumer] refers to. *)
Definition start (c0 : Ctx) : M unit :=
  ch <- Connection_channel (c_connection c0) ;;
  set_node_channel (Some ch) ;;
  k <- listen Pidbox_on_message ;;
  set_consumer (Some k) ;;
  p <- get_box ;;
  match consumer p with
  | Some k' =>
      set_consumer
        (Some {| consumer_id := consumer_id k';
                 consumer_channel := consumer_channel k';
                 callbacks := callbacks k';
                 on_decode_error := Some (c_on_decode_error c0) |})
  | None => raise (OtherException "AttributeError" "on_decode_error")
  end.

(** The hook does nothing ([pass]); that it was called is put on the
    trace. *)
Definition on_stop : M unit := emit OnStop.

(** Returns [None], as a Python function without [return] does.
    [self.node] is the object made in [__init__] and is always true, so
    the test is on [self.node.channel] alone. *)
Definition _close_channel (c0 : Ctx) : M (option Consumer) :=
  p <- get_box ;;
  match channel (node p) with
  | Some ch => ignore_errors c0 (Channel_close ch) ;; ret None
  | None => ret None
  end.

Definition stop (c0 : Ctx) : M unit :=
  on_stop ;;
  r <- _close_channel c0 ;;
  set_consumer r.

Definition reset : M unit :=
  p <- get_box ;;
  stop (c p) ;;
  p' <- get_box ;;
  start (c p').

(** [message], the transport's envelope, is only handed on to the
    node. *)
Definition on_message (body : Body) : M unit :=
  _forward_clock ;;
  try_except
    (handle_message body ;; ret tt)
    (fun exc =>
       if isinstance_KeyError exc then
         Some (error "No such control command: %s" exc false)
       else if isinstance_Exception exc then
         Some (error "Control command error: %r" exc true ;;
               reset)
       else None).

Definition shutdown (c0 : Ctx) : M unit :=
  on_stop ;;
  p <- get_box ;;
  match consumer p with
  | Some k =>
      debug "Cancelling broadcast consumer..." ;;
      ignore_errors c0 (Consumer_cancel k) ;;
      ret tt
  | None => ret tt
  end ;;
  p' <- get_box ;;
  stop (c p').

End Mailbox.

(** ** Reading the trace *)

(** Modelled from the spec: the two states of the state machine, read
    off the object by the invariant of spec 3 (Consumer is non-null iff
    state = Listening). *)
Inductive state : Type := Stopped | Listening.

Definition state_of (p : Pidbox) : state :=
  match consumer p with Some _ => Listening | None => Stopped end.

Definition is_clock (ev : event) : bool :=
  match ev with ClockForward => true | _ => false end.
Definition is_on_stop (ev : event) : bool :=
  match ev with OnStop => true | _ => false end.
Definition is_open (ev : event) : bool :=
  match ev with ChannelOpen _ => true | _ => false end.
Definition is_open_attempt (ev : event) : bool :=
  match ev with ChannelOpen _ | ChannelOpenFailed _ _ => true | _ => false end.
Definition is_close (ev : event) : bool :=
  match ev with ChannelClose _ _ => true | _ => false end.
Definition is_cancel (ev : event) : bool :=
  match ev with ConsumerCancel _ _ => true | _ => false end.
Definition is_created (ev : event) : bool :=
  match ev with ConsumerCreated _ => true | _ => false end.

Fixpoint count (p : event -> bool) (tr : list event) : nat :=
  match tr with
  | [] => 0
  | ev :: tr' => (if p ev then 1 else 0) + count p tr'
  end.

(** The events a computation adds to the trace when run from [s]. *)
Definition events {A} (m : M A) (s : Sys) : list event :=
  drop (length (trace (world s))) (trace (world (m s).2)).

(** Identities are handed out in increasing order, and a consumer is
    only held together with a channel. Every state the methods can
    reach from [Pidbox(c)] is of this kind. *)
Definition wf (s : Sys) : bool :=
  match channel (node (box s)) with
  | Some ch => (channel_id ch <? fresh (world s))%nat
  | None => match consumer (box s) with Some _ => false | None => true end
  end.

(** [n] rounds of [start] then [stop]; an exception ends the sequence. *)
Fixpoint start_stop_pairs (T : Transport) (c0 : Ctx) (n : nat) : M unit :=
  match n with
  | 0 => ret tt
  | S n' => start T c0 ;; stop T c0 ;; start_stop_pairs T c0 n'
  end.

(** The calls a worker and its broker make on the mailbox, and the
    state a sequence of them leads to. A call that raised leaves its
    partial effects behind, and later calls go on from there. *)
Inductive call : Type :=
| CallStart (c0 : Ctx)
| CallStop (c0 : Ctx)
| CallReset
| CallShutdown (c0 : Ctx)
| CallOnMessage (body : Body).

Definition perform (T : Transport) (k : call) : M unit :=
  match k with
  | CallStart c0 => start T c0
  | CallStop c0 => stop T c0
  | CallReset => reset T
  | CallShutdown c0 => shutdown T c0
  | CallOnMessage body => on_message T body
  end.

Fixpoint history (T : Transport) (ks : list call) (s : Sys) : Sys :=
  match ks with
  | [] => s
  | k :: ks' => history T ks' (perform T k s).2
  end.

(** The system just after [Pidbox(c)], in a world where the clock shows
    [t], [n] objects exist and [tr] has happened. *)
Definition constructed (Panel_data : gmap string handler) (c0 : Ctx)
    (t n : nat) (tr : list event) : Sys :=
  {| box := __init__ Panel_data c0;
     world := {| clock := t; fresh := n; trace := tr |} |}.

(** ** What the methods leave on the trace *)

Section Shapes.

Variable T : Transport.

(** The channel and the consumer a successful [start] makes from [s]. *)
Definition new_channel (c0 : Ctx) (s : Sys) : Channel :=
  {| channel_id := fresh (world s); channel_connection := c_connection c0 |}.

Definition new_consumer (c0 : Ctx) (s : Sys) (ode : option callback) : Consumer :=
  {| consumer_id := S (fresh (world s)); consumer_channel := new_channel c0 s;
     callbacks := [Pidbox_on_message]; on_decode_error := ode |}.

(** The close that [stop] performs from [s], if the node holds a channel. *)
Definition closing (s : Sys) : list event :=
  match channel (node (box s)) with
  | Some ch => [ChannelClose ch (close_result T (trace (world s) ++ [OnStop]) ch)]
  | None => []
  end.

(** What [start] adds to the trace from [s]. *)
Definition opening (c0 : Ctx) (s : Sys) : list event :=
  match channel_result T (trace (world s)) (c_connection c0) with
  | Some e => [ChannelOpenFailed (c_connection c0) e]
  | None => [ChannelOpen (new_channel c0 s); ConsumerCreated (new_consumer c0 s None)]
  end.

(** [s] with further events on its trace. *)
Definition logged (s : Sys) (evs : list event) : Sys :=
  {| box := box s;
     world := {| clock := clock (world s); fresh := fresh (world s);
                 trace := trace (world s) ++ evs |} |}.

Definition cancelling_msg : string := "Cancelling broadcast consumer...".

(** The cancel that [shutdown] performs from [s], if a consumer is held. *)
Definition cancelling (s : Sys) : list event :=
  match consumer (box s) with
  | Some k =>
      [LogDebug cancelling_msg;
       ConsumerCancel k
         (cancel_result T (trace (world s) ++ [OnStop; LogDebug cancelling_msg]) k)]
  | None => []
  end.

(** The system once [on_message] has advanced the clock and the events
    [evs] have followed; the mailbox itself is as it was. *)
Definition ticked (s : Sys) (evs : list event) : Sys :=
  {| box := box s;
     world := {| clock := S (clock (world s)); fresh := fresh (world s);
                 trace := trace (world s) ++ ClockForward :: evs |} |}.

Definition unknown_command_fmt : string := "No such control command: %s".
Definition command_error_fmt : string := "Control command error: %r".

End Shapes.

(** Following the spec's words (4.5): [stop()] immediately followed by
    [start()], both with the same worker context [ctx]. *)
Definition stop_then_start (T : Transport) (ctx : Ctx) (s : Sys) : result unit * Sys :=
  match stop T ctx s with
  | (Ok _, s1) => start T ctx s1
  | (Raise e, s1) => (Raise e, s1)
  end.

(** ** Readings over whole histories *)

Definition is_log_error (ev : event) : bool :=
  match ev with LogError _ _ _ => true | _ => false end.

(** How many of the calls are deliveries of a message. *)
Fixpoint messages (ks : list call) : nat :=
  match ks with
  | [] => 0
  | CallOnMessage _ :: ks' => S (messages ks')
  | _ :: ks' => messages ks'
  end.

(** A held consumer listens on the channel the node holds, with
    [on_message] as its one callback and a decode-error callback set. *)
Definition attached (s : Sys) : Prop :=
  forall k, consumer (box s) = Some k ->
    channel (node (box s)) = Some (consumer_channel k) /\
    callbacks k = [Pidbox_on_message] /\
    exists cb, on_decode_error k = Some cb.

(** Every close on the trace comes after the opening of that channel. *)
Definition opened_before (tr : list event) : Prop :=
  forall i ch r, tr !! i = Some (ChannelClose ch r) ->
    exists j, j < i /\ tr !! j = Some (ChannelOpen ch).

(** The channel held was opened on the trace, and so was every channel
    closed on it, before its close. *)
Definition accounted (s : Sys) : Prop :=
  opened_before (trace (world s)) /\
  forall ch, channel (node (box s)) = Some ch ->
    exists j, trace (world s) !! j = Some (ChannelOpen ch).

(** What [__init__] stored and no method assigns: the worker context,
    the host name, and the node's host name, registry and shared state. *)
Definition same_setup (s s' : Sys) : Prop :=
  c (box s') = c (box s) /\
  hostname (box s') = hostname (box s) /\
  node_hostname (node (box s')) = node_hostname (node (box s)) /\
  handlers (node (box s')) = handlers (node (box s)) /\
  node_state (node (box s')) = node_state (node (box s)).

(** ** Concrete mailboxes to run the model on *)

Module Sample.

(** A broker on which nothing ever fails. *)
Definition quiet : Transport :=
  {| channel_result := fun _ _ => None;
     close_result := fun _ _ => None;
     cancel_result := fun _ _ => None |}.

(** A broker that grants one channel and refuses every later one. *)
Definition one_channel_only : Transport :=
  {| channel_result := fun tr _ =>
       if existsb is_open tr
       then Some (TransportError "connection refused") else None;
     close_result := fun _ _ => None;
     cancel_result := fun _ _ => None |}.

(** A broker on which closing and cancelling always raise. *)
Definition broken_teardown : Transport :=
  {| channel_result := fun _ _ => None;
     close_result := fun _ _ => Some (TransportError "channel gone");
     cancel_result := fun _ _ => Some (OtherException "OSError" "broken pipe") |}.

Definition worker : Ctx :=
  {| c_hostname := "w1@example.com";
     c_connection := 7;
     c_on_decode_error := Callable "Consumer.on_decode_error" |}.

Definition ping : handler := fun _ _ => Returns "pong".
Definition boom : handler := fun _ _ => Raises (OtherException "RuntimeError" "boom").
Definition stats : handler := fun _ _ => Raises (KeyError "pool").
Definition halt : handler := fun _ _ => Raises (SystemExit "shutdown").

Definition panel : gmap string handler :=
  <["ping" := ping]> (<["boom" := boom]> (<["stats" := stats]> (<["shutdown" := halt]> ∅))).

Definition msg (name : string) : Body := {| command := name; arguments := [] |}.

(** The system just after [Pidbox(c)]. *)
Definition boot : Sys := constructed panel worker 0 0 [].

(** The system after a successful [start] on broker [T]. *)
Definition listening (T : Transport) : Sys := (start T worker boot).2.

End Sample.

Import Sample.

(** * What each method does, as equations *)

Lemma count_app p tr1 tr2 : count p (tr1 ++ tr2) = count p tr1 + count p tr2.
Proof.
  induction tr1 as [|ev tr1 IH]; simpl; [done|].
  rewrite IH. lia.
Qed.

Lemma events_of_trace {A} (m : M A) s evs :
  trace (world (m s).2) = trace (world s) ++ evs -> events m s = evs.
Proof.
  intros H. unfold events. rewrite H. apply drop_app_length.
Qed.

Section Runs.

Variable T : Transport.

Lemma stop_run c0 s :
  stop T c0 s =
  (Ok tt,
   {| box := {| c := c (box s); hostname := hostname (box s);
                node := node (box s); consumer := None |};
      world := {| clock := clock (world s); fresh := fresh (world s);
                  trace := trace (world s) ++ OnStop :: closing T s |} |}).
Proof.
  unfold stop, on_stop, _close_channel, ignore_errors, Channel_close, closing.
  unfold try_except, bind, ret, raise, emit, get_box, set_consumer; simpl.
  destruct (channel (node (box s))) as [ch|]; simpl; [|done].
  destruct (close_result T (trace (world s) ++ [OnStop]) ch); simpl;
    by rewrite <- app_assoc.
Qed.

Lemma start_run_failed c0 s e :
  channel_result T (trace (world s)) (c_connection c0) = Some e ->
  start T c0 s =
  (Raise e,
   {| box := box s;
      world := {| clock := clock (world s); fresh := fresh (world s);
                  trace := trace (world s) ++ [ChannelOpenFailed (c_connection c0) e] |} |}).
Proof.
  intros H. unfold start, Connection_channel, bind at 1. by rewrite H.
Qed.

Lemma start_run_ok c0 s :
  channel_result T (trace (world s)) (c_connection c0) = None ->
  start T c0 s =
  (Ok tt,
   {| box := {| c := c (box s); hostname := hostname (box s);
                node := {| node_hostname := node_hostname (node (box s));
                           handlers := handlers (node (box s));
                           node_state := node_state (node (box s));
                           channel := Some (new_channel c0 s) |};
                consumer := Some (new_consumer c0 s (Some (c_on_decode_error c0))) |};
      world := {| clock := clock (world s); fresh := S (S (fresh (world s)));
                  trace := trace (world s) ++
                           [ChannelOpen (new_channel c0 s);
                            ConsumerCreated (new_consumer c0 s None)] |} |}).
Proof.
  intros H. unfold start, Connection_channel, listen, bind at 1. rewrite H.
  unfold bind, ret, emit, new_id, get_box, set_consumer, set_node_channel; simpl.
  by rewrite <- app_assoc.
Qed.

Lemma reset_run s : reset T s = start T (c (box s)) (stop T (c (box s)) s).2.
Proof.
  unfold reset, bind at 1, get_box at 1. unfold bind at 1.
  rewrite stop_run. reflexivity.
Qed.

End Runs.

Section Dispatch.

Variable T : Transport.

Local Arguments lookup : simpl never.

Lemma on_message_absent body s :
  handlers (node (box s)) !! command body = None ->
  on_message T body s =
  (Ok tt,
   ticked s [HandleMessage body;
             LogError unknown_command_fmt (KeyError (command body)) false]).
Proof.
  intros H. unfold on_message, _forward_clock, forward, handle_message, error, ticked.
  unfold try_except, bind, ret, raise, emit, get_box; simpl. rewrite H; simpl.
  by rewrite <- !app_assoc.
Qed.

Lemma on_message_returns body s h reply :
  handlers (node (box s)) !! command body = Some h ->
  h (node_state (node (box s))) (arguments body) = Returns reply ->
  on_message T body s =
  (Ok tt,
   ticked s [HandleMessage body; HandlerCalled (command body) (arguments body)]).
Proof.
  intros H Hh. unfold on_message, _forward_clock, forward, handle_message, ticked.
  unfold try_except, bind, ret, raise, emit, get_box; simpl. rewrite H; simpl.
  rewrite Hh; simpl. by rewrite <- !app_assoc.
Qed.

Lemma on_message_raises body s h e :
  handlers (node (box s)) !! command body = Some h ->
  h (node_state (node (box s))) (arguments body) = Raises e ->
  on_message T body s =
  let called := [HandleMessage body; HandlerCalled (command body) (arguments body)] in
  if isinstance_KeyError e then
    (Ok tt, ticked s (called ++ [LogError unknown_command_fmt e false]))
  else if isinstance_Exception e then
    reset T (ticked s (called ++ [LogError command_error_fmt e true]))
  else
    (Raise e, ticked s called).
Proof.
  intros H Hh. unfold on_message, _forward_clock, forward, handle_message, error, ticked.
  unfold try_except, bind at 1 2 3 4 5, ret, raise, emit, get_box; simpl. rewrite H; simpl.
  rewrite Hh; simpl.
  destruct (isinstance_KeyError e); simpl; [by rewrite <- !app_assoc|].
  destruct (isinstance_Exception e); simpl; [|by rewrite <- !app_assoc].
  unfold bind; simpl. by rewrite <- !app_assoc.
Qed.

End Dispatch.

Section Teardown.

Variable T : Transport.

Lemma shutdown_run c0 s :
  shutdown T c0 s = stop T (c (box s)) (logged s (OnStop :: cancelling T s)).
Proof.
  unfold shutdown, on_stop, debug, ignore_errors, Consumer_cancel, cancelling, logged.
  unfold try_except, bind, ret, raise, emit, get_box; simpl.
  destruct (consumer (box s)) as [k|]; simpl; [|done].
  rewrite <- !app_assoc; simpl.
  destruct (cancel_result T _ k); simpl; reflexivity.
Qed.

Lemma stop_trace c0 s :
  trace (world (stop T c0 s).2) = trace (world s) ++ OnStop :: closing T s.
Proof. by rewrite stop_run. Qed.

Lemma shutdown_trace c0 s :
  trace (world (shutdown T c0 s).2) =
  trace (world s) ++
  OnStop :: cancelling T s ++ OnStop :: closing T (logged s (OnStop :: cancelling T s)).
Proof.
  rewrite shutdown_run, stop_trace. simpl. by rewrite <- app_assoc.
Qed.

End Teardown.

(** ** The invariant of reachable states *)

Section Invariant.

Variable T : Transport.

Lemma wf_init Panel_data c0 t n tr : wf (constructed Panel_data c0 t n tr) = true.
Proof. reflexivity. Qed.

Lemma wf_stop c0 s : wf s = true -> wf (stop T c0 s).2 = true.
Proof.
  rewrite stop_run. unfold wf; simpl.
  by destruct (channel (node (box s))).
Qed.

Lemma wf_start c0 s : wf s = true -> wf (start T c0 s).2 = true.
Proof.
  intros H.
  destruct (channel_result T (trace (world s)) (c_connection c0)) as [e|] eqn:E.
  - by rewrite (start_run_failed _ _ _ _ E).
  - rewrite (start_run_ok _ _ _ E). unfold wf; simpl.
    apply Nat.ltb_lt. lia.
Qed.

Lemma wf_reset s : wf s = true -> wf (reset T s).2 = true.
Proof. intros H. rewrite reset_run. by apply wf_start, wf_stop. Qed.

Lemma wf_shutdown c0 s : wf s = true -> wf (shutdown T c0 s).2 = true.
Proof. intros H. rewrite shutdown_run. by apply wf_stop. Qed.

Lemma wf_ticked s evs : wf s = true -> wf (ticked s evs) = true.
Proof. done. Qed.

Lemma wf_on_message body s : wf s = true -> wf (on_message T body s).2 = true.
Proof.
  intros H.
  destruct (handlers (node (box s)) !! command body) as [h|] eqn:E.
  - destruct (h (node_state (node (box s))) (arguments body)) as [reply|e] eqn:Eh.
    + by rewrite (on_message_returns _ _ _ _ _ E Eh).
    + rewrite (on_message_raises _ _ _ _ _ E Eh). cbv zeta.
      destruct (isinstance_KeyError e); [done|].
      destruct (isinstance_Exception e); [|done].
      by apply wf_reset.
  - by rewrite (on_message_absent _ _ _ E).
Qed.

Lemma wf_perform k s : wf s = true -> wf (perform T k s).2 = true.
Proof.
  destruct k; simpl;
    auto using wf_start, wf_stop, wf_reset, wf_shutdown, wf_on_message.
Qed.

Lemma wf_history ks : forall s, wf s = true -> wf (history T ks s) = true.
Proof.
  induction ks as [|k ks IH]; intros s H; simpl; [done|].
  by apply IH, wf_perform.
Qed.

(** The worker context captured by [__init__] is never replaced. *)
Lemma c_stop c0 s : c (box (stop T c0 s).2) = c (box s).
Proof. by rewrite stop_run. Qed.

Lemma c_start c0 s : c (box (start T c0 s).2) = c (box s).
Proof.
  destruct (channel_result T (trace (world s)) (c_connection c0)) as [e|] eqn:E.
  - by rewrite (start_run_failed _ _ _ _ E).
  - by rewrite (start_run_ok _ _ _ E).
Qed.

Lemma c_reset s : c (box (reset T s).2) = c (box s).
Proof. by rewrite reset_run, c_start, c_stop. Qed.

End Invariant.

Section Traces.

Variable T : Transport.

Lemma start_trace c0 s :
  trace (world (start T c0 s).2) = trace (world s) ++ opening T c0 s.
Proof.
  unfold opening.
  destruct (channel_result T (trace (world s)) (c_connection c0)) as [e|] eqn:E.
  - by rewrite (start_run_failed _ _ _ _ E).
  - by rewrite (start_run_ok _ _ _ E).
Qed.

Lemma reset_trace s :
  trace (world (reset T s).2) =
  trace (world s) ++
  OnStop :: closing T s ++ opening T (c (box s)) (stop T (c (box s)) s).2.
Proof.
  rewrite reset_run, start_trace, stop_trace.
  by rewrite <- app_assoc.
Qed.

Lemma clock_stop c0 s : clock (world (stop T c0 s).2) = clock (world s).
Proof. by rewrite stop_run. Qed.

Lemma clock_start c0 s : clock (world (start T c0 s).2) = clock (world s).
Proof.
  destruct (channel_result T (trace (world s)) (c_connection c0)) as [e|] eqn:E.
  - by rewrite (start_run_failed _ _ _ _ E).
  - by rewrite (start_run_ok _ _ _ E).
Qed.

Lemma clock_reset s : clock (world (reset T s).2) = clock (world s).
Proof. by rewrite reset_run, clock_start, clock_stop. Qed.

(** [closing] holds at most one event, a close. *)
Lemma count_closing p s :
  count p (closing T s) =
  match channel (node (box s)) with
  | Some ch => if p (ChannelClose ch (close_result T (trace (world s) ++ [OnStop]) ch))
               then 1 else 0
  | None => 0
  end.
Proof.
  unfold closing. destruct (channel (node (box s))); simpl; [lia|done].
Qed.

(** [opening] is one attempt: a failure, or a channel and its consumer. *)
Lemma count_opening_attempt c0 s : count is_open_attempt (opening T c0 s) = 1.
Proof.
  unfold opening. by destruct (channel_result T _ _).
Qed.

Lemma count_opening_other p c0 s :
  (forall ch, p (ChannelOpen ch) = false) ->
  (forall conn e, p (ChannelOpenFailed conn e) = false) ->
  (forall k, p (ConsumerCreated k) = false) ->
  count p (opening T c0 s) = 0.
Proof.
  intros H1 H2 H3. unfold opening.
  destruct (channel_result T _ _); simpl; by rewrite ?H1, ?H2, ?H3.
Qed.

End Traces.

Section Recovery.

Variable T : Transport.

Lemma stop_events c0 s : events (stop T c0) s = OnStop :: closing T s.
Proof. apply events_of_trace, stop_trace. Qed.

Lemma start_events c0 s : events (start T c0) s = opening T c0 s.
Proof. apply events_of_trace, start_trace. Qed.

Lemma shutdown_events c0 s :
  events (shutdown T c0) s =
  OnStop :: cancelling T s ++ OnStop :: closing T (logged s (OnStop :: cancelling T s)).
Proof. apply events_of_trace, shutdown_trace. Qed.

Lemma reset_events s :
  events (reset T) s =
  OnStop :: closing T s ++ opening T (c (box s)) (stop T (c (box s)) s).2.
Proof. apply events_of_trace, reset_trace. Qed.

(** [start] raises exactly what opening the channel raises. *)
Lemma start_raises_iff c0 s e :
  (start T c0 s).1 = Raise e <->
  channel_result T (trace (world s)) (c_connection c0) = Some e.
Proof.
  destruct (channel_result T (trace (world s)) (c_connection c0)) as [e'|] eqn:E.
  - rewrite (start_run_failed _ _ _ _ E). simpl. split; congruence.
  - rewrite (start_run_ok _ _ _ E). simpl. split; congruence.
Qed.

(** A channel opened from a well-formed state is not the one held. *)
Lemma new_channel_distinct c0 s :
  wf s = true -> Some (new_channel c0 s) <> channel (node (box s)).
Proof.
  unfold wf. destruct (channel (node (box s))) as [ch|]; [|done].
  intros H%Nat.ltb_lt [= <-]. simpl in H. lia.
Qed.

End Recovery.

Section Balance.

Variable T : Transport.

Lemma start_stop_pairs_S c0 n s :
  start_stop_pairs T c0 (S n) s =
  match start T c0 s with
  | (Ok _, s1) => start_stop_pairs T c0 n (stop T c0 s1).2
  | (Raise e, s1) => (Raise e, s1)
  end.
Proof.
  simpl. unfold bind. destruct (start T c0 s) as [[[]|e] s1]; [|done].
  by rewrite stop_run.
Qed.

(** Rounds of [start] then [stop] open as many channels as they close,
    one per completed round. *)
Lemma start_stop_pairs_trace c0 n : forall s,
  exists evs,
    trace (world (start_stop_pairs T c0 n s).2) = trace (world s) ++ evs /\
    count is_open evs = count is_close evs /\
    ((start_stop_pairs T c0 n s).1 = Ok tt -> count is_open evs = n).
Proof.
  induction n as [|n IH]; intros s.
  { exists []. simpl. by rewrite app_nil_r. }
  rewrite start_stop_pairs_S.
  destruct (channel_result T (trace (world s)) (c_connection c0)) as [e|] eqn:E.
  - rewrite (start_run_failed _ _ _ _ E).
    exists [ChannelOpenFailed (c_connection c0) e]. by repeat split.
  - rewrite (start_run_ok _ _ _ E), stop_run.
    match goal with |- context [start_stop_pairs T c0 n ?s2] =>
      destruct (IH s2) as (evs & Ht & Hc & Hn)
    end.
    eexists. split.
    + rewrite Ht. unfold closing; simpl. rewrite <- !app_assoc. simpl. reflexivity.
    + simpl. split; [by rewrite Hc|]. intros Hok. by rewrite (Hn Hok).
Qed.

Lemma held_channel s :
  wf s = true -> state_of (box s) = Listening ->
  exists ch, channel (node (box s)) = Some ch.
Proof.
  unfold wf, state_of. destruct (channel (node (box s))) as [ch|]; [by exists ch|].
  by destruct (consumer (box s)).
Qed.

End Balance.

(** ** The mailbox at work *)

(** A registered command that returns: the handler is called, the clock
    moves once, nothing is reset. *)
Example ping_is_answered :
  let r := on_message quiet (msg "ping") (listening quiet) in
  r.1 = Ok tt /\
  box r.2 = box (listening quiet) /\
  clock (world r.2) = 1 /\
  events (on_message quiet (msg "ping")) (listening quiet) =
    [ClockForward; HandleMessage (msg "ping"); HandlerCalled "ping" []].
Proof. repeat split. Qed.

(** An empty registry: the command is unknown, logged, and the mailbox
    is as before. *)
Example ping_unknown_to_empty_panel :
  let s := (start quiet worker (constructed ∅ worker 0 0 [])).2 in
  let r := on_message quiet (msg "ping") s in
  r.1 = Ok tt /\
  box r.2 = box s /\
  events (on_message quiet (msg "ping")) s =
    [ClockForward; HandleMessage (msg "ping");
     LogError unknown_command_fmt (KeyError "ping") false].
Proof. repeat split. Qed.

(** A handler that raises: error logged, one reset, and the channel
    held afterwards is a new one. *)
Example boom_resets_the_mailbox :
  let r := on_message quiet (msg "boom") (listening quiet) in
  r.1 = Ok tt /\
  channel (node (box (listening quiet))) =
    Some {| channel_id := 0; channel_connection := 7 |} /\
  channel (node (box r.2)) =
    Some {| channel_id := 2; channel_connection := 7 |} /\
  events (on_message quiet (msg "boom")) (listening quiet) =
    [ClockForward; HandleMessage (msg "boom"); HandlerCalled "boom" [];
     LogError command_error_fmt (OtherException "RuntimeError" "boom") true;
     OnStop;
     ChannelClose {| channel_id := 0; channel_connection := 7 |} None;
     ChannelOpen {| channel_id := 2; channel_connection := 7 |};
     ConsumerCreated
       {| consumer_id := 3;
          consumer_channel := {| channel_id := 2; channel_connection := 7 |};
          callbacks := [Pidbox_on_message]; on_decode_error := None |}].
Proof. repeat split. Qed.

(** [shutdown] while Listening on a broker where cancel and close both
    raise: both are tried, nothing escapes, the mailbox is Stopped. *)
Example shutdown_on_broken_broker :
  let s := listening broken_teardown in
  let r := shutdown broken_teardown worker s in
  r.1 = Ok tt /\
  state_of (box r.2) = Stopped /\
  count is_cancel (events (shutdown broken_teardown worker) s) = 1 /\
  count is_close (events (shutdown broken_teardown worker) s) = 1 /\
  count is_on_stop (events (shutdown broken_teardown worker) s) = 2.
Proof. repeat split. Qed.

(** * The claims *)

(** C1, as the code has it: when the handler found for the command
    raises an error of class [Exception] that is not a [KeyError],
    [on_message] logs it at error level with the traceback and then
    runs [reset] exactly once: one [stop] followed by one [start]. When
    that [start] gets its channel the call returns, the mailbox is
    Listening and the channel held is a new one, distinct from the one
    held before; when it does not, the call raises what opening the
    channel raised and the mailbox is left Stopped on the old channel. *)
Theorem handler_error_resets_once (T : Transport) (body : Body) (s : Sys)
    (h : handler) (e : exn) :
  handlers (node (box s)) !! command body = Some h ->
  h (node_state (node (box s))) (arguments body) = Raises e ->
  isinstance_KeyError e = false ->
  isinstance_Exception e = true ->
  wf s = true ->
  let said := [HandleMessage body;
               HandlerCalled (command body) (arguments body);
               LogError command_error_fmt e true] in
  let heard := ticked s said in
  let r := on_message T body s in
  r = reset T heard /\
  events (on_message T body) s =
    ClockForward :: said ++
    events (stop T (c (box s))) heard ++
    events (start T (c (box s))) (stop T (c (box s)) heard).2 /\
  count is_on_stop (events (on_message T body) s) = 1 /\
  count is_open_attempt (events (on_message T body) s) = 1 /\
  (r.1 = Ok tt ->
   state_of (box r.2) = Listening /\
   channel (node (box r.2)) = Some (new_channel (c (box s)) s) /\
   channel (node (box r.2)) <> channel (node (box s))) /\
  (forall e', r.1 = Raise e' ->
   channel_result T (trace (world (stop T (c (box s)) heard).2))
     (c_connection (c (box s))) = Some e' /\
   state_of (box r.2) = Stopped /\
   channel (node (box r.2)) = channel (node (box s))).
Proof.
  intros H Hh Hk He Hwf. cbv zeta.
  pose proof (on_message_raises T _ _ _ _ H Hh) as Hrun. cbv zeta in Hrun.
  rewrite Hk, He in Hrun. simpl app in Hrun.
  set (heard := ticked s _) in *.
  assert (Hev : events (on_message T body) s =
                ClockForward ::
                [HandleMessage body; HandlerCalled (command body) (arguments body);
                 LogError command_error_fmt e true] ++
                events (stop T (c (box s))) heard ++
                events (start T (c (box s))) (stop T (c (box s)) heard).2).
  { apply events_of_trace. rewrite Hrun, reset_trace, stop_events, start_events.
    subst heard; simpl. by rewrite <- app_assoc. }
  split; [exact Hrun|]. split; [exact Hev|].
  rewrite Hev, stop_events, start_events. simpl.
  rewrite !count_app, !count_closing, count_opening_attempt,
    count_opening_other by done.
  split; [by destruct (channel (node (box heard)))|].
  split; [by destruct (channel (node (box heard)))|].
  rewrite Hrun, reset_run.
  change (c (box heard)) with (c (box s)).
  destruct (channel_result T (trace (world (stop T (c (box s)) heard).2))
              (c_connection (c (box s)))) as [e'|] eqn:E.
  - rewrite (start_run_failed _ _ _ _ E). simpl. split; [discriminate|].
    intros e'' [= <-]. rewrite stop_run. by repeat split.
  - rewrite (start_run_ok _ _ _ E). simpl. split; [|discriminate].
    assert (Hn : new_channel (c (box s)) (stop T (c (box s)) heard).2 =
                 new_channel (c (box s)) s) by (by rewrite stop_run).
    rewrite Hn. intros _. split; [done|]. split; [done|].
    by apply new_channel_distinct.
Qed.

Lemma handler_error_resets_once_witness :
  handlers (node (box (listening quiet))) !! command (msg "boom") = Some boom /\
  wf (listening quiet) = true /\
  count is_on_stop (events (on_message quiet (msg "boom")) (listening quiet)) = 1 /\
  count is_open_attempt (events (on_message quiet (msg "boom")) (listening quiet)) = 1.
Proof.
  split; [reflexivity|]. split; [reflexivity|].
  pose proof (handler_error_resets_once quiet (msg "boom") (listening quiet) boom
                (OtherException "RuntimeError" "boom")
                eq_refl eq_refl eq_refl eq_refl eq_refl) as H.
  split; [exact (proj1 (proj2 (proj2 H))) | exact (proj1 (proj2 (proj2 (proj2 H))))].
Defined.

(** C1 as stated fails. On a broker that refuses the second channel, a
    handler raising a [RuntimeError] makes [on_message] stop the mailbox
    and fail to start it again: the call raises and the channel held
    afterwards is the one held before. And a handler raising
    [SystemExit] is neither logged nor followed by a reset. *)
Lemma handler_error_without_new_channel :
  (let s := listening one_channel_only in
   let r := on_message one_channel_only (msg "boom") s in
   handlers (node (box s)) !! "boom" = Some boom /\
   boom (node_state (node (box s))) [] = Raises (OtherException "RuntimeError" "boom") /\
   r.1 = Raise (TransportError "connection refused") /\
   channel (node (box r.2)) = channel (node (box s)) /\
   consumer (box r.2) = None) /\
  (let s := listening quiet in
   let r := on_message quiet (msg "shutdown") s in
   handlers (node (box s)) !! "shutdown" = Some halt /\
   halt (node_state (node (box s))) [] = Raises (SystemExit "shutdown") /\
   r.1 = Raise (SystemExit "shutdown") /\
   count is_on_stop (events (on_message quiet (msg "shutdown")) s) = 0 /\
   events (on_message quiet (msg "shutdown")) s =
     [ClockForward; HandleMessage (msg "shutdown"); HandlerCalled "shutdown" []]).
Proof. repeat split. Qed.

(** C2: for every message whose command is not in the registry,
    [on_message] logs the missing name at error level and returns; the
    mailbox object (consumer, node, channel) is exactly as before, and
    nothing is stopped, closed or opened. *)
Theorem unknown_command_leaves_mailbox (T : Transport) (body : Body) (s : Sys) :
  handlers (node (box s)) !! command body = None ->
  let r := on_message T body s in
  r.1 = Ok tt /\
  box r.2 = box s /\
  events (on_message T body) s =
    [ClockForward; HandleMessage body;
     LogError unknown_command_fmt (KeyError (command body)) false] /\
  count is_on_stop (events (on_message T body) s) = 0 /\
  count is_close (events (on_message T body) s) = 0 /\
  count is_open_attempt (events (on_message T body) s) = 0.
Proof.
  intros H. cbv zeta.
  assert (Hev : events (on_message T body) s =
                [ClockForward; HandleMessage body;
                 LogError unknown_command_fmt (KeyError (command body)) false]).
  { apply events_of_trace. by rewrite (on_message_absent _ _ _ H). }
  rewrite Hev, (on_message_absent _ _ _ H). by repeat split.
Qed.

Lemma unknown_command_leaves_mailbox_witness :
  handlers (node (box (listening quiet))) !! command (msg "restart") = None /\
  (on_message quiet (msg "restart") (listening quiet)).1 = Ok tt /\
  box (on_message quiet (msg "restart") (listening quiet)).2 = box (listening quiet).
Proof.
  split; [reflexivity|].
  pose proof (unknown_command_leaves_mailbox quiet (msg "restart") (listening quiet)
                eq_refl) as H.
  split; [exact (proj1 H) | exact (proj1 (proj2 H))].
Defined.

(** C3: for every message, [on_message] advances the logical clock
    exactly once, and does so first: the clock event opens what the call
    adds to the trace, the hand-over to the node follows it, and no
    other clock event occurs, whether the command is known, unknown, or
    its handler raises. *)
Theorem on_message_forwards_clock_once (T : Transport) (body : Body) (s : Sys) :
  clock (world (on_message T body s).2) = S (clock (world s)) /\
  count is_clock (events (on_message T body) s) = 1 /\
  exists rest,
    events (on_message T body) s = ClockForward :: HandleMessage body :: rest /\
    count is_clock rest = 0.
Proof.
  assert (Hgoal : forall evs,
            count is_clock evs = 0 ->
            clock (world (on_message T body s).2) = S (clock (world s)) ->
            trace (world (on_message T body s).2) =
              trace (world s) ++ ClockForward :: HandleMessage body :: evs ->
            clock (world (on_message T body s).2) = S (clock (world s)) /\
            count is_clock (events (on_message T body) s) = 1 /\
            exists rest,
              events (on_message T body) s =
                ClockForward :: HandleMessage body :: rest /\
              count is_clock rest = 0).
  { intros evs H0 Hc Ht. rewrite (events_of_trace _ _ _ Ht).
    split; [done|]. split; [simpl; by rewrite H0|]. by exists evs. }
  destruct (handlers (node (box s)) !! command body) as [h|] eqn:E.
  - destruct (h (node_state (node (box s))) (arguments body)) as [reply|e] eqn:Eh.
    + apply (Hgoal [HandlerCalled (command body) (arguments body)]);
        rewrite ?(on_message_returns T _ _ _ _ E Eh); done.
    + pose proof (on_message_raises T _ _ _ _ E Eh) as Hrun. cbv zeta in Hrun.
      destruct (isinstance_KeyError e).
      { apply (Hgoal [HandlerCalled (command body) (arguments body);
                       LogError unknown_command_fmt e false]);
          rewrite ?Hrun; done. }
      destruct (isinstance_Exception e).
      2:{ apply (Hgoal [HandlerCalled (command body) (arguments body)]);
          rewrite ?Hrun; done. }
      set (heard := ticked s _) in Hrun.
      apply (Hgoal ([HandlerCalled (command body) (arguments body);
                     LogError command_error_fmt e true] ++
                    OnStop :: closing T heard ++
                    opening T (c (box heard)) (stop T (c (box heard)) heard).2)).
      * simpl. rewrite count_app, count_closing, count_opening_other by done.
        simpl. by destruct (channel (node (box s))).
      * by rewrite Hrun, clock_reset.
      * rewrite Hrun, reset_trace. simpl. by rewrite <- app_assoc.
  - apply (Hgoal [LogError unknown_command_fmt (KeyError (command body)) false]);
      rewrite ?(on_message_absent T _ _ E); done.
Qed.

(** C4, as the code has it: [stop] and [shutdown] never raise; [start]
    raises exactly when opening the channel does, with that error; and
    [on_message] raises in two cases only, both after the handler found
    for the command has raised something that is not a [KeyError]:
    either that error is outside class [Exception] ([SystemExit],
    [KeyboardInterrupt]) and passes through untouched, or it is an
    [Exception], the mailbox is reset, and the [start] of that reset
    fails to open its channel, whose error then leaves [on_message]. *)
Theorem faults_that_reach_the_caller (T : Transport) (c0 : Ctx) (body : Body)
    (s : Sys) :
  (stop T c0 s).1 = Ok tt /\
  (shutdown T c0 s).1 = Ok tt /\
  (forall e,
     (start T c0 s).1 = Raise e <->
     channel_result T (trace (world s)) (c_connection c0) = Some e) /\
  (forall e,
     (on_message T body s).1 = Raise e <->
     exists h e0,
       handlers (node (box s)) !! command body = Some h /\
       h (node_state (node (box s))) (arguments body) = Raises e0 /\
       isinstance_KeyError e0 = false /\
       ((isinstance_Exception e0 = false /\ e = e0) \/
        (isinstance_Exception e0 = true /\
         channel_result T
           (trace (world
              (stop T (c (box s))
                 (ticked s [HandleMessage body;
                            HandlerCalled (command body) (arguments body);
                            LogError command_error_fmt e0 true])).2))
           (c_connection (c (box s))) = Some e))).
Proof.
  split; [by rewrite stop_run|].
  split; [by rewrite shutdown_run, stop_run|].
  split; [intros e; apply start_raises_iff|].
  intros e.
  destruct (handlers (node (box s)) !! command body) as [h|] eqn:E.
  2:{ rewrite (on_message_absent T _ _ E). simpl.
      split; [discriminate|]. by intros (h & e0 & ? & _). }
  destruct (h (node_state (node (box s))) (arguments body)) as [reply|e1] eqn:Eh.
  { rewrite (on_message_returns T _ _ _ _ E Eh). simpl.
    split; [discriminate|]. intros (h' & e0 & [= <-] & Hr & _). congruence. }
  pose proof (on_message_raises T _ _ _ _ E Eh) as Hrun. cbv zeta in Hrun.
  destruct (isinstance_KeyError e1) eqn:Hk.
  { rewrite Hrun. simpl. split; [discriminate|].
    intros (h' & e0 & [= <-] & Hr & Hk' & _). congruence. }
  destruct (isinstance_Exception e1) eqn:He.
  - rewrite Hrun, reset_run. simpl app.
    rewrite start_raises_iff. split.
    + intros Hc. exists h, e1. repeat split; try done. right. by split.
    + intros (h' & e0 & [= <-] & Hr & _ & [[He0 _]|[_ Hc]]).
      * congruence.
      * assert (e0 = e1) as -> by congruence. exact Hc.
  - rewrite Hrun. simpl. split.
    + intros [= ->]. exists h, e. repeat split; try done. left. by split.
    + intros (h' & e0 & [= <-] & Hr & _ & [[_ ->]|[He0 _]]); congruence.
Qed.

Lemma faults_that_reach_the_caller_witness :
  (on_message one_channel_only (msg "boom") (listening one_channel_only)).1 =
    Raise (TransportError "connection refused") /\
  exists h e0,
    handlers (node (box (listening one_channel_only))) !! "boom" = Some h /\
    h (node_state (node (box (listening one_channel_only)))) [] = Raises e0 /\
    isinstance_KeyError e0 = false.
Proof.
  split; [reflexivity|].
  pose proof (proj1 (proj2 (proj2 (proj2
                (faults_that_reach_the_caller one_channel_only worker (msg "boom")
                   (listening one_channel_only))))
                (TransportError "connection refused")) eq_refl) as (h & e0 & H1 & H2 & H3 & _).
  exists h, e0. repeat split; assumption.
Defined.

(** C4 as stated fails: a fault that arises while a message is handled
    can leave [on_message]. The failure to reopen the channel during the
    reset does, and so does a handler's [SystemExit]. *)
Lemma dispatch_fault_reaches_delivery_loop :
  (on_message one_channel_only (msg "boom") (listening one_channel_only)).1 =
    Raise (TransportError "connection refused") /\
  (on_message quiet (msg "shutdown") (listening quiet)).1 =
    Raise (SystemExit "shutdown").
Proof. split; reflexivity. Qed.

(** C5, as the code has it: for every starting state [stop] calls the
    on-stop hook and then closes the channel the node holds, if any; the
    call returns normally whatever the close raised; afterwards the
    consumer is null (state Stopped) while the node still refers to the
    channel it held, now closed. From a Stopped state the mailbox object
    is left exactly as it was and no error is raised. *)
Theorem stop_clears_consumer_keeps_channel (T : Transport) (c0 : Ctx) (s : Sys) :
  let r := stop T c0 s in
  r.1 = Ok tt /\
  consumer (box r.2) = None /\
  state_of (box r.2) = Stopped /\
  channel (node (box r.2)) = channel (node (box s)) /\
  events (stop T c0) s =
    OnStop ::
    match channel (node (box s)) with
    | Some ch => [ChannelClose ch (close_result T (trace (world s) ++ [OnStop]) ch)]
    | None => []
    end /\
  (state_of (box s) = Stopped -> box r.2 = box s).
Proof.
  cbv zeta. repeat split.
  - by rewrite stop_run.
  - by rewrite stop_run.
  - by rewrite stop_run.
  - by rewrite stop_run.
  - apply events_of_trace. by rewrite stop_trace.
  - rewrite stop_run; simpl. unfold state_of.
    destruct (box s) as [c1 h1 n1 [k|]]; simpl; [discriminate|done].
Qed.

Lemma stop_clears_consumer_keeps_channel_witness :
  let s := (stop broken_teardown worker (listening broken_teardown)).2 in
  state_of (box s) = Stopped /\
  box (stop broken_teardown worker s).2 = box s.
Proof.
  split; [reflexivity|].
  apply (stop_clears_consumer_keeps_channel broken_teardown worker
           (stop broken_teardown worker (listening broken_teardown)).2).
  reflexivity.
Defined.

(** C5 as stated fails: after [start] then [stop] the consumer is null
    but the node's channel is not; it is the channel that was closed. *)
Lemma stop_does_not_null_channel :
  let s' := (stop quiet worker (listening quiet)).2 in
  consumer (box s') = None /\
  channel (node (box s')) = Some {| channel_id := 0; channel_connection := 7 |} /\
  channel (node (box s')) <> None.
Proof. repeat split; [reflexivity..|discriminate]. Qed.

(** C6: for every starting state and whatever [cancel] and [close]
    raise, [shutdown] calls the on-stop hook, cancels the consumer if
    one is held, then performs [stop]; it returns normally and the state
    is Stopped. *)
Theorem shutdown_always_stops (T : Transport) (c0 : Ctx) (s : Sys) :
  let r := shutdown T c0 s in
  r.1 = Ok tt /\
  state_of (box r.2) = Stopped /\
  shutdown T c0 s = stop T (c (box s)) (logged s (OnStop :: cancelling T s)) /\
  events (shutdown T c0) s =
    OnStop ::
    match consumer (box s) with
    | Some k =>
        [LogDebug cancelling_msg;
         ConsumerCancel k
           (cancel_result T (trace (world s) ++ [OnStop; LogDebug cancelling_msg]) k)]
    | None => []
    end ++
    OnStop :: closing T (logged s (OnStop :: cancelling T s)).
Proof.
  cbv zeta. repeat split.
  - by rewrite shutdown_run, stop_run.
  - by rewrite shutdown_run, stop_run.
  - apply shutdown_run.
  - apply events_of_trace. by rewrite shutdown_trace.
Qed.

(** C7, as the code has it: after any sequence of calls on a newly
    constructed mailbox, leaving Listening closes exactly one channel;
    [stop] and [reset] cancel no consumer, [shutdown] cancels exactly
    one. Entering Listening by a successful [start] opens exactly one
    channel and creates exactly one consumer. Any number of [start] then
    [stop] rounds opens as many channels as it closes. *)
Theorem lifecycle_opens_and_closes (T : Transport)
    (Panel_data : gmap string handler) (cw : Ctx) (t n : nat) (tr : list event)
    (ks : list call) (c0 : Ctx) :
  let s := history T ks (constructed Panel_data cw t n tr) in
  (state_of (box s) = Listening ->
   (state_of (box (stop T c0 s).2) = Stopped /\
    count is_close (events (stop T c0) s) = 1 /\
    count is_cancel (events (stop T c0) s) = 0) /\
   (state_of (box (shutdown T c0 s).2) = Stopped /\
    count is_close (events (shutdown T c0) s) = 1 /\
    count is_cancel (events (shutdown T c0) s) = 1) /\
   (count is_close (events (reset T) s) = 1 /\
    count is_cancel (events (reset T) s) = 0 /\
    count is_open_attempt (events (reset T) s) = 1)) /\
  ((start T c0 s).1 = Ok tt ->
   state_of (box (start T c0 s).2) = Listening /\
   count is_open (events (start T c0) s) = 1 /\
   count is_created (events (start T c0) s) = 1) /\
  (forall m,
   count is_open (events (start_stop_pairs T c0 m) s) =
   count is_close (events (start_stop_pairs T c0 m) s) /\
   ((start_stop_pairs T c0 m s).1 = Ok tt ->
    count is_open (events (start_stop_pairs T c0 m) s) = m)).
Proof.
  intros s.
  assert (Hwf : wf s = true) by apply wf_history, wf_init.
  clearbody s. split; [|split].
  - intros Hl. destruct (held_channel s Hwf Hl) as [ch Hch].
    unfold state_of in Hl. destruct (consumer (box s)) as [k|] eqn:Hk; [|done].
    rewrite stop_events, shutdown_events, reset_events, shutdown_run, !stop_run.
    cbn [count is_close is_cancel is_open_attempt].
    rewrite !count_app, count_opening_attempt, !count_opening_other by done.
    unfold closing, cancelling; simpl. rewrite Hch, Hk. simpl.
    by repeat split.
  - intros Hok. rewrite start_events. unfold opening.
    destruct (channel_result T (trace (world s)) (c_connection c0)) as [e|] eqn:E.
    + rewrite (start_run_failed _ _ _ _ E) in Hok. discriminate.
    + rewrite (start_run_ok _ _ _ E). by repeat split.
  - intros m. destruct (start_stop_pairs_trace T c0 m s) as (evs & Ht & Hc & Hn).
    by rewrite (events_of_trace _ _ _ Ht).
Qed.

Lemma lifecycle_opens_and_closes_witness :
  state_of (box (history broken_teardown [CallStart worker] boot)) = Listening /\
  count is_close
    (events (stop broken_teardown worker)
       (history broken_teardown [CallStart worker] boot)) = 1 /\
  count is_cancel
    (events (stop broken_teardown worker)
       (history broken_teardown [CallStart worker] boot)) = 0.
Proof.
  split; [reflexivity|].
  pose proof (proj1 (lifecycle_opens_and_closes broken_teardown panel worker 0 0 []
                       [CallStart worker] worker) eq_refl) as H.
  split; [exact (proj1 (proj2 (proj1 H))) | exact (proj2 (proj2 (proj1 H)))].
Defined.

(** C7 as stated fails: [stop] takes the mailbox out of Listening and
    closes its channel, but cancels no consumer. *)
Lemma stop_cancels_no_consumer :
  let s := history quiet [CallStart worker] boot in
  state_of (box s) = Listening /\
  state_of (box (stop quiet worker s).2) = Stopped /\
  count is_close (events (stop quiet worker) s) = 1 /\
  count is_cancel (events (stop quiet worker) s) = 0 /\
  count is_cancel (events (stop quiet worker) s) <> 1.
Proof. repeat split. discriminate. Qed.

(** C8: for every state, [reset] gives the result, the state and the
    trace of [stop] immediately followed by [start], both with the
    worker context [self.c] stored at construction, which the reset
    leaves in place. *)
Theorem reset_is_stop_then_start (T : Transport) (s : Sys) :
  reset T s = stop_then_start T (c (box s)) s /\
  c (box (reset T s).2) = c (box s).
Proof.
  split; [|apply c_reset].
  unfold stop_then_start. rewrite reset_run.
  by rewrite (stop_run T (c (box s)) s).
Qed.

(** C9: when the connection grants a channel, [start] stores it on the
    node, creates one consumer on it with [on_message] as callback and
    the worker's decode-error callback, and the state is Listening; when
    opening the channel raises, that error reaches the caller, the
    mailbox is untouched and no consumer is created. *)
Theorem start_opens_and_listens (T : Transport) (c0 : Ctx) (s : Sys) :
  let r := start T c0 s in
  (channel_result T (trace (world s)) (c_connection c0) = None ->
   exists ch k,
     r.1 = Ok tt /\
     state_of (box r.2) = Listening /\
     channel (node (box r.2)) = Some ch /\
     channel_connection ch = c_connection c0 /\
     consumer (box r.2) = Some k /\
     consumer_channel k = ch /\
     callbacks k = [Pidbox_on_message] /\
     on_decode_error k = Some (c_on_decode_error c0) /\
     count is_open (events (start T c0) s) = 1 /\
     count is_created (events (start T c0) s) = 1) /\
  (forall e,
   channel_result T (trace (world s)) (c_connection c0) = Some e ->
   r.1 = Raise e /\
   box r.2 = box s /\
   events (start T c0) s = [ChannelOpenFailed (c_connection c0) e] /\
   count is_created (events (start T c0) s) = 0).
Proof.
  cbv zeta. split.
  - intros E.
    exists (new_channel c0 s), (new_consumer c0 s (Some (c_on_decode_error c0))).
    assert (Hev : events (start T c0) s =
                  [ChannelOpen (new_channel c0 s);
                   ConsumerCreated (new_consumer c0 s None)]).
    { apply events_of_trace. by rewrite (start_run_ok _ _ _ E). }
    rewrite Hev, (start_run_ok _ _ _ E). by repeat split.
  - intros e E.
    assert (Hev : events (start T c0) s = [ChannelOpenFailed (c_connection c0) e]).
    { apply events_of_trace. by rewrite (start_run_failed _ _ _ _ E). }
    rewrite Hev, (start_run_failed _ _ _ _ E). by repeat split.
Qed.

Lemma start_opens_and_listens_witness :
  (channel_result quiet (trace (world boot)) (c_connection worker) = None /\
   exists ch k,
     (start quiet worker boot).1 = Ok tt /\
     state_of (box (start quiet worker boot).2) = Listening /\
     channel (node (box (start quiet worker boot).2)) = Some ch /\
     channel_connection ch = c_connection worker /\
     consumer (box (start quiet worker boot).2) = Some k /\
     consumer_channel k = ch /\
     callbacks k = [Pidbox_on_message] /\
     on_decode_error k = Some (c_on_decode_error worker) /\
     count is_open (events (start quiet worker) boot) = 1 /\
     count is_created (events (start quiet worker) boot) = 1) /\
  (channel_result one_channel_only (trace (world (listening one_channel_only)))
     (c_connection worker) = Some (TransportError "connection refused") /\
   (start one_channel_only worker (listening one_channel_only)).1 =
     Raise (TransportError "connection refused") /\
   box (start one_channel_only worker (listening one_channel_only)).2 =
     box (listening one_channel_only)).
Proof.
  split.
  - split; [reflexivity|].
    apply (start_opens_and_listens quiet worker boot). reflexivity.
  - split; [reflexivity|].
    pose proof (proj2 (start_opens_and_listens one_channel_only worker
                         (listening one_channel_only))
                  (TransportError "connection refused") eq_refl) as H.
    split; [exact (proj1 H) | exact (proj1 (proj2 H))].
Defined.

(** C10: when the command is in the registry and its handler raises a
    [KeyError] from its own body, [on_message] takes the same path as
    for an unknown command: it logs [No such control command] with that
    error and returns, with no reset; channel and consumer are as
    before. *)
Theorem handler_key_error_taken_as_unknown (T : Transport) (body : Body) (s : Sys)
    (h : handler) (e : exn) :
  handlers (node (box s)) !! command body = Some h ->
  h (node_state (node (box s))) (arguments body) = Raises e ->
  isinstance_KeyError e = true ->
  let r := on_message T body s in
  r.1 = Ok tt /\
  box r.2 = box s /\
  events (on_message T body) s =
    [ClockForward; HandleMessage body;
     HandlerCalled (command body) (arguments body);
     LogError unknown_command_fmt e false] /\
  count is_on_stop (events (on_message T body) s) = 0 /\
  count is_close (events (on_message T body) s) = 0 /\
  count is_open_attempt (events (on_message T body) s) = 0.
Proof.
  intros H Hh He. cbv zeta.
  pose proof (on_message_raises T _ _ _ _ H Hh) as Hrun.
  cbv zeta in Hrun. rewrite He in Hrun.
  assert (Hev : events (on_message T body) s =
                [ClockForward; HandleMessage body;
                 HandlerCalled (command body) (arguments body);
                 LogError unknown_command_fmt e false]).
  { apply events_of_trace. by rewrite Hrun. }
  rewrite Hev, Hrun. by repeat split.
Qed.

Lemma handler_key_error_taken_as_unknown_witness :
  handlers (node (box (listening quiet))) !! command (msg "stats") = Some stats /\
  stats (node_state (node (box (listening quiet)))) (arguments (msg "stats")) =
    Raises (KeyError "pool") /\
  isinstance_KeyError (KeyError "pool") = true /\
  (on_message quiet (msg "stats") (listening quiet)).1 = Ok tt /\
  box (on_message quiet (msg "stats") (listening quiet)).2 = box (listening quiet).
Proof.
  do 3 (split; [reflexivity|]).
  pose proof (handler_key_error_taken_as_unknown quiet (msg "stats") (listening quiet)
                stats (KeyError "pool") eq_refl eq_refl eq_refl) as H.
  split; [exact (proj1 H) | exact (proj1 (proj2 H))].
Defined.

(** * Further properties of the methods *)

Section Deliveries.

Variable T : Transport.

(** What one delivery adds to the trace, on every path. *)
Lemma on_message_events body s :
  events (on_message T body) s =
  ClockForward :: HandleMessage body ::
  match handlers (node (box s)) !! command body with
  | None => [LogError unknown_command_fmt (KeyError (command body)) false]
  | Some h =>
      HandlerCalled (command body) (arguments body) ::
      match h (node_state (node (box s))) (arguments body) with
      | Returns _ => []
      | Raises e =>
          if isinstance_KeyError e then [LogError unknown_command_fmt e false]
          else if isinstance_Exception e then
            let heard := ticked s [HandleMessage body;
                                   HandlerCalled (command body) (arguments body);
                                   LogError command_error_fmt e true] in
            LogError command_error_fmt e true ::
            OnStop :: closing T heard ++
            opening T (c (box s)) (stop T (c (box s)) heard).2
          else []
      end
  end.
Proof.
  apply events_of_trace.
  destruct (handlers (node (box s)) !! command body) as [h|] eqn:E.
  2:{ by rewrite (on_message_absent T _ _ E). }
  destruct (h (node_state (node (box s))) (arguments body)) as [reply|e] eqn:Eh.
  { by rewrite (on_message_returns T _ _ _ _ E Eh). }
  pose proof (on_message_raises T _ _ _ _ E Eh) as Hrun. cbv zeta in Hrun.
  destruct (isinstance_KeyError e); [by rewrite Hrun|].
  destruct (isinstance_Exception e); [|by rewrite Hrun].
  rewrite Hrun, reset_trace. cbv zeta. simpl. by rewrite <- app_assoc.
Qed.

End Deliveries.

(** X1: when the handler found for the command returns, [on_message]
    returns normally whatever the reply is; the mailbox object is as
    before, and nothing is logged, stopped, closed or opened. *)
Theorem handler_reply_leaves_mailbox (T : Transport) (body : Body) (s : Sys)
    (h : handler) (reply : string) :
  handlers (node (box s)) !! command body = Some h ->
  h (node_state (node (box s))) (arguments body) = Returns reply ->
  let r := on_message T body s in
  r.1 = Ok tt /\
  box r.2 = box s /\
  events (on_message T body) s =
    [ClockForward; HandleMessage body;
     HandlerCalled (command body) (arguments body)] /\
  count is_log_error (events (on_message T body) s) = 0 /\
  count is_on_stop (events (on_message T body) s) = 0 /\
  count is_open_attempt (events (on_message T body) s) = 0.
Proof.
  intros H Hh. cbv zeta.
  rewrite on_message_events, H, Hh, (on_message_returns T _ _ _ _ H Hh).
  by repeat split.
Qed.

Lemma handler_reply_leaves_mailbox_witness :
  handlers (node (box (listening quiet))) !! command (msg "ping") = Some ping /\
  (on_message quiet (msg "ping") (listening quiet)).1 = Ok tt /\
  box (on_message quiet (msg "ping") (listening quiet)).2 = box (listening quiet).
Proof.
  split; [reflexivity|].
  pose proof (handler_reply_leaves_mailbox quiet (msg "ping") (listening quiet)
                ping "pong" eq_refl eq_refl) as H.
  split; [exact (proj1 H) | exact (proj1 (proj2 H))].
Defined.

(** X2: when the handler raises an error that is not of class
    [Exception], [on_message] lets it through as it is: the same error
    leaves the call, the clock has advanced, the mailbox object is as
    before, and nothing is logged or reset. *)
Theorem base_exception_passes_through (T : Transport) (body : Body) (s : Sys)
    (h : handler) (e : exn) :
  handlers (node (box s)) !! command body = Some h ->
  h (node_state (node (box s))) (arguments body) = Raises e ->
  isinstance_Exception e = false ->
  let r := on_message T body s in
  r.1 = Raise e /\
  box r.2 = box s /\
  clock (world r.2) = S (clock (world s)) /\
  events (on_message T body) s =
    [ClockForward; HandleMessage body;
     HandlerCalled (command body) (arguments body)].
Proof.
  intros H Hh He. cbv zeta.
  assert (Hk : isinstance_KeyError e = false) by (by destruct e).
  pose proof (on_message_raises T _ _ _ _ H Hh) as Hrun. cbv zeta in Hrun.
  rewrite Hk, He in Hrun.
  rewrite on_message_events, H, Hh, Hk, He, Hrun.
  by repeat split.
Qed.

Lemma base_exception_passes_through_witness :
  handlers (node (box (listening quiet))) !! command (msg "shutdown") = Some halt /\
  isinstance_Exception (SystemExit "shutdown") = false /\
  (on_message quiet (msg "shutdown") (listening quiet)).1 =
    Raise (SystemExit "shutdown") /\
  box (on_message quiet (msg "shutdown") (listening quiet)).2 =
    box (listening quiet).
Proof.
  do 2 (split; [reflexivity|]).
  pose proof (base_exception_passes_through quiet (msg "shutdown") (listening quiet)
                halt (SystemExit "shutdown") eq_refl eq_refl eq_refl) as H.
  split; [exact (proj1 H) | exact (proj1 (proj2 H))].
Defined.

(** X3: one delivery writes at most one error entry to the log: exactly
    one when the command is missing or its handler raised an error of
    class [Exception], none when the handler returned or raised
    something outside [Exception]. The reset that may follow logs
    nothing. *)
Theorem error_log_per_delivery (T : Transport) (body : Body) (s : Sys) :
  count is_log_error (events (on_message T body) s) =
  match handlers (node (box s)) !! command body with
  | None => 1
  | Some h =>
      match h (node_state (node (box s))) (arguments body) with
      | Returns _ => 0
      | Raises e => if isinstance_Exception e then 1 else 0
      end
  end.
Proof.
  rewrite on_message_events.
  destruct (handlers (node (box s)) !! command body) as [h|]; [|done].
  destruct (h (node_state (node (box s))) (arguments body)) as [reply|e]; [done|].
  destruct (isinstance_KeyError e) eqn:Hk; [by destruct e|].
  destruct (isinstance_Exception e); [|done].
  cbv zeta. cbn [count is_log_error].
  rewrite count_app, count_closing, count_opening_other by done.
  by destruct (channel (node (box _))).
Qed.

(** X4: a delivery stops the mailbox only when the handler found for
    the command raised an [Exception] that is not a [KeyError], and then
    once; it never cancels a consumer, and it closes a channel only as
    part of that stop. *)
Theorem delivery_stops_only_on_handler_error (T : Transport) (body : Body)
    (s : Sys) :
  count is_on_stop (events (on_message T body) s) =
    match handlers (node (box s)) !! command body with
    | None => 0
    | Some h =>
        match h (node_state (node (box s))) (arguments body) with
        | Returns _ => 0
        | Raises e =>
            if isinstance_KeyError e then 0
            else if isinstance_Exception e then 1 else 0
        end
    end /\
  count is_cancel (events (on_message T body) s) = 0 /\
  count is_close (events (on_message T body) s) <=
    count is_on_stop (events (on_message T body) s).
Proof.
  rewrite on_message_events.
  destruct (handlers (node (box s)) !! command body) as [h|]; [|by repeat split].
  destruct (h (node_state (node (box s))) (arguments body)) as [reply|e];
    [by repeat split|].
  destruct (isinstance_KeyError e); [by repeat split|].
  destruct (isinstance_Exception e); [|by repeat split].
  cbv zeta. cbn [count is_on_stop is_cancel is_close].
  rewrite !count_app, !count_closing, !count_opening_other by done.
  destruct (channel (node (box _))); simpl; repeat split; lia.
Qed.

(** X5: the on-stop hook runs once in [stop], once in [reset], twice in
    [shutdown] (which calls it and then calls [stop]) and never in
    [start]. *)
Theorem on_stop_hook_calls (T : Transport) (c0 : Ctx) (s : Sys) :
  count is_on_stop (events (stop T c0) s) = 1 /\
  count is_on_stop (events (reset T) s) = 1 /\
  count is_on_stop (events (shutdown T c0) s) = 2 /\
  count is_on_stop (events (start T c0) s) = 0.
Proof.
  rewrite stop_events, reset_events, shutdown_events, start_events.
  cbn [count is_on_stop].
  rewrite !count_app, !count_closing, !count_opening_other by done.
  cbn [count is_on_stop].
  rewrite !count_closing.
  unfold cancelling.
  destruct (consumer (box s)), (channel (node (box s))) eqn:E; simpl;
    rewrite ?E; by repeat split.
Qed.

(** X6: on a mailbox that holds neither channel nor consumer, as after
    construction, [stop] and [shutdown] only run the on-stop hook: no
    close and no cancel is attempted, and the mailbox object is as
    before. *)
Theorem teardown_without_channel (T : Transport) (c0 : Ctx) (s : Sys) :
  channel (node (box s)) = None ->
  consumer (box s) = None ->
  stop T c0 s = (Ok tt, logged s [OnStop]) /\
  shutdown T c0 s = (Ok tt, logged s [OnStop; OnStop]) /\
  events (stop T c0) s = [OnStop] /\
  events (shutdown T c0) s = [OnStop; OnStop].
Proof.
  intros Hch Hk.
  assert (Hbox : {| c := c (box s); hostname := hostname (box s);
                    node := node (box s); consumer := None |} = box s).
  { destruct (box s); simpl in *. by subst. }
  rewrite stop_events, shutdown_events, shutdown_run, !stop_run.
  unfold closing, cancelling, logged; simpl. rewrite Hch, Hk; simpl.
  rewrite Hbox, <- app_assoc. by repeat split.
Qed.

Lemma teardown_without_channel_witness :
  channel (node (box boot)) = None /\
  events (shutdown broken_teardown worker) boot = [OnStop; OnStop].
Proof.
  split; [reflexivity|].
  exact (proj2 (proj2 (proj2
           (teardown_without_channel broken_teardown worker boot eq_refl eq_refl)))).
Defined.

(** X7: [stop] does not forget the channel it closed. After a [stop]
    the node still holds it, and a further [stop] or [shutdown] closes
    that same channel again; the [shutdown] cancels nothing, there being
    no consumer left. *)
Theorem stop_again_closes_again (T : Transport) (c0 c1 : Ctx) (s : Sys)
    (ch : Channel) :
  channel (node (box s)) = Some ch ->
  let s1 := (stop T c0 s).2 in
  channel (node (box s1)) = Some ch /\
  events (stop T c1) s1 =
    [OnStop; ChannelClose ch (close_result T (trace (world s1) ++ [OnStop]) ch)] /\
  events (shutdown T c1) s1 =
    [OnStop; OnStop;
     ChannelClose ch (close_result T (trace (world s1) ++ [OnStop; OnStop]) ch)].
Proof.
  intros Hch. cbv zeta.
  rewrite stop_events, shutdown_events, !stop_run.
  unfold closing, cancelling, logged; simpl. rewrite Hch; simpl.
  rewrite <- !app_assoc. by repeat split.
Qed.

Lemma stop_again_closes_again_witness :
  channel (node (box (listening quiet))) =
    Some {| channel_id := 0; channel_connection := 7 |} /\
  count is_close
    (events (stop quiet worker) (stop quiet worker (listening quiet)).2) = 1.
Proof.
  split; [reflexivity|].
  pose proof (stop_again_closes_again quiet worker worker (listening quiet)
                {| channel_id := 0; channel_connection := 7 |} eq_refl) as H.
  cbv zeta in H. rewrite (proj1 (proj2 H)). reflexivity.
Defined.



Section Histories.

Variable T : Transport.

Lemma on_message_cases body s :
  (exists evs, on_message T body s = (Ok tt, ticked s evs) /\
               count is_close evs = 0) \/
  (exists e evs, on_message T body s = (Raise e, ticked s evs) /\
                 count is_close evs = 0) \/
  (exists evs, on_message T body s = reset T (ticked s evs) /\
               count is_close evs = 0).
Proof.
  destruct (handlers (node (box s)) !! command body) as [h|] eqn:E.
  2:{ left. eexists. by rewrite (on_message_absent T _ _ E). }
  destruct (h (node_state (node (box s))) (arguments body)) as [reply|e] eqn:Eh.
  { left. eexists. by rewrite (on_message_returns T _ _ _ _ E Eh). }
  pose proof (on_message_raises T _ _ _ _ E Eh) as Hrun. cbv zeta in Hrun.
  destruct (isinstance_KeyError e).
  { left. eexists. by rewrite Hrun. }
  destruct (isinstance_Exception e).
  - right; right. eexists. by rewrite Hrun.
  - right; left. do 2 eexists. by rewrite Hrun.
Qed.

(** *** The setup is never reassigned *)

Lemma same_setup_refl s : same_setup s s.
Proof. by repeat split. Qed.

Lemma same_setup_trans s1 s2 s3 :
  same_setup s1 s2 -> same_setup s2 s3 -> same_setup s1 s3.
Proof.
  intros (?&?&?&?&?) (?&?&?&?&?). repeat split; congruence.
Qed.

Lemma same_setup_stop c0 s : same_setup s (stop T c0 s).2.
Proof. rewrite stop_run. by repeat split. Qed.

Lemma same_setup_start c0 s : same_setup s (start T c0 s).2.
Proof.
  destruct (channel_result T (trace (world s)) (c_connection c0)) as [e|] eqn:E.
  - rewrite (start_run_failed _ _ _ _ E). by repeat split.
  - rewrite (start_run_ok _ _ _ E). by repeat split.
Qed.

Lemma same_setup_reset s : same_setup s (reset T s).2.
Proof.
  rewrite reset_run.
  eapply same_setup_trans; [apply same_setup_stop|apply same_setup_start].
Qed.

Lemma same_setup_perform k s : same_setup s (perform T k s).2.
Proof.
  destruct k as [c0|c0| |c0|body]; simpl.
  - apply same_setup_start.
  - apply same_setup_stop.
  - apply same_setup_reset.
  - rewrite shutdown_run.
    apply (same_setup_trans _ (logged s (OnStop :: cancelling T s)));
      [by repeat split|apply same_setup_stop].
  - destruct (on_message_cases body s)
      as [(evs & -> & _)|[(e & evs & -> & _)|(evs & -> & _)]];
      [by repeat split..|].
    apply (same_setup_trans _ (ticked s evs));
      [by repeat split|apply same_setup_reset].
Qed.

(** *** The clock *)

Lemma clock_perform k s :
  clock (world (perform T k s).2) =
  clock (world s) + messages [k].
Proof.
  destruct k as [c0|c0| |c0|body]; simpl.
  - rewrite clock_start. lia.
  - rewrite clock_stop. lia.
  - rewrite clock_reset. lia.
  - rewrite shutdown_run, clock_stop. simpl. lia.
  - destruct (on_message_cases body s)
      as [(evs & -> & _)|[(e & evs & -> & _)|(evs & -> & _)]];
      rewrite ?clock_reset; simpl; lia.
Qed.

End Histories.

(** X9: no sequence of calls reassigns what [__init__] stored: the
    worker context [self.c], [self.hostname], and the node's host name,
    handler registry and shared state stay as constructed. *)
Theorem history_keeps_setup (T : Transport) (ks : list call) (s : Sys) :
  same_setup s (history T ks s).
Proof.
  revert s. induction ks as [|k ks IH]; intros s; simpl.
  - apply same_setup_refl.
  - eapply same_setup_trans; [apply same_setup_perform|apply IH].
Qed.

(** X10: over any sequence of calls the logical clock advances by the
    number of messages delivered: [start], [stop], [reset] and
    [shutdown] leave it alone, and each [on_message] advances it by one
    however the delivery ends. *)
Theorem history_clock (T : Transport) (ks : list call) (s : Sys) :
  clock (world (history T ks s)) = clock (world s) + messages ks.
Proof.
  revert s. induction ks as [|k ks IH]; intros s; simpl; [lia|].
  rewrite IH, clock_perform. destruct k; simpl; lia.
Qed.

Section Attachment.

Variable T : Transport.

Lemma attached_box s s' : box s' = box s -> attached s -> attached s'.
Proof. unfold attached. by intros ->. Qed.

Lemma attached_stop c0 s : attached (stop T c0 s).2.
Proof. rewrite stop_run. by intros k. Qed.

Lemma attached_start c0 s : attached s -> attached (start T c0 s).2.
Proof.
  intros H.
  destruct (channel_result T (trace (world s)) (c_connection c0)) as [e|] eqn:E.
  - by rewrite (start_run_failed _ _ _ _ E).
  - rewrite (start_run_ok _ _ _ E). intros k [= <-]. simpl. eauto.
Qed.

Lemma attached_reset s : attached (reset T s).2.
Proof. rewrite reset_run. apply attached_start, attached_stop. Qed.

Lemma attached_perform k s : attached s -> attached (perform T k s).2.
Proof.
  intros H. destruct k as [c0|c0| |c0|body]; simpl.
  - by apply attached_start.
  - apply attached_stop.
  - apply attached_reset.
  - rewrite shutdown_run. apply attached_stop.
  - destruct (on_message_cases T body s)
      as [(evs & -> & _)|[(e & evs & -> & _)|(evs & -> & _)]];
      [by apply (attached_box s)..|apply attached_reset].
Qed.

End Attachment.

(** X11: after any sequence of calls on a newly constructed mailbox, a
    consumer that is held listens on the very channel the node holds,
    has [on_message] as its only callback and has a decode-error
    callback set. *)
Theorem history_consumer_attached (T : Transport)
    (Panel_data : gmap string handler) (cw : Ctx) (t n : nat) (tr : list event)
    (ks : list call) (k : Consumer) :
  let s := history T ks (constructed Panel_data cw t n tr) in
  consumer (box s) = Some k ->
  channel (node (box s)) = Some (consumer_channel k) /\
  callbacks k = [Pidbox_on_message] /\
  exists cb, on_decode_error k = Some cb.
Proof.
  cbv zeta.
  assert (H : forall s, attached s -> attached (history T ks s)).
  { induction ks as [|k0 ks' IH]; intros s Hs; simpl; [done|].
    by apply IH, attached_perform. }
  apply (H (constructed Panel_data cw t n tr)). by intros k0.
Qed.

Lemma history_consumer_attached_witness :
  let s := history quiet [CallStart worker; CallOnMessage (msg "boom")] boot in
  let k := new_consumer worker (stop quiet worker (listening quiet)).2
             (Some (c_on_decode_error worker)) in
  consumer (box s) = Some k /\
  channel (node (box s)) = Some (consumer_channel k).
Proof.
  split; [reflexivity|].
  exact (proj1 (history_consumer_attached quiet panel worker 0 0 []
                  [CallStart worker; CallOnMessage (msg "boom")]
                  (new_consumer worker (stop quiet worker (listening quiet)).2
                     (Some (c_on_decode_error worker)))
                  eq_refl)).
Defined.

Section Accounting.

Variable T : Transport.

Lemma count_zero_lookup p evs j ev :
  count p evs = 0 -> evs !! j = Some ev -> p ev = false.
Proof.
  revert j. induction evs as [|e evs IH]; intros j Hc Hj; [done|].
  simpl in Hc. destruct j as [|j]; simpl in Hj.
  - injection Hj as ->. destruct (p ev); [lia|done].
  - apply (IH j); [lia|done].
Qed.

Lemma opened_before_quiet tr evs :
  opened_before tr -> count is_close evs = 0 -> opened_before (tr ++ evs).
Proof.
  intros H Hc i ch r Hi.
  apply lookup_app_Some in Hi as [Hi|[_ Hi]].
  - destruct (H i ch r Hi) as (j & Hj & Ho). exists j. split; [done|].
    by apply lookup_app_l_Some.
  - by pose proof (count_zero_lookup _ _ _ _ Hc Hi).
Qed.

Lemma opened_before_close tr ch r j :
  opened_before tr -> tr !! j = Some (ChannelOpen ch) ->
  opened_before (tr ++ [ChannelClose ch r]).
Proof.
  intros H Ho i ch' r' Hi.
  apply lookup_app_Some in Hi as [Hi|[Hle Hi]].
  - destruct (H i ch' r' Hi) as (j' & Hj & Ho'). exists j'. split; [done|].
    by apply lookup_app_l_Some.
  - destruct (i - length tr) as [|m] eqn:Em; simpl in Hi; [|done].
    injection Hi as <- <-. exists j. split.
    + apply lookup_lt_Some in Ho. lia.
    + by apply lookup_app_l_Some.
Qed.

(** Events that close nothing, with the same channel held afterwards. *)
Lemma accounted_quiet s s' evs :
  accounted s ->
  trace (world s') = trace (world s) ++ evs ->
  count is_close evs = 0 ->
  channel (node (box s')) = channel (node (box s)) ->
  accounted s'.
Proof.
  intros [Hb Hh] Ht Hc Hch. split.
  - rewrite Ht. by apply opened_before_quiet.
  - intros ch Hs. rewrite Hch in Hs. destruct (Hh ch Hs) as [j Hj].
    exists j. rewrite Ht. by apply lookup_app_l_Some.
Qed.

Lemma accounted_stop c0 s : accounted s -> accounted (stop T c0 s).2.
Proof.
  intros Hs.
  assert (H1 : accounted (logged s [OnStop])) by by apply (accounted_quiet s _ [OnStop]).
  rewrite stop_run. unfold closing.
  destruct (channel (node (box s))) as [ch|] eqn:Hch.
  - destruct H1 as [Hb Hh]. destruct (Hh ch Hch) as [j Hj]. split; simpl.
    + change (OnStop :: ?l) with ([OnStop] ++ l). rewrite app_assoc.
      by eapply opened_before_close.
    + intros ch' Hch'. rewrite Hch in Hch'. injection Hch' as <-.
      exists j. change (OnStop :: ?l) with ([OnStop] ++ l). rewrite app_assoc.
      by apply lookup_app_l_Some.
  - by apply (accounted_quiet s _ [OnStop]).
Qed.

Lemma accounted_start c0 s : accounted s -> accounted (start T c0 s).2.
Proof.
  intros Hs.
  destruct (channel_result T (trace (world s)) (c_connection c0)) as [e|] eqn:E.
  - rewrite (start_run_failed _ _ _ _ E).
    by apply (accounted_quiet s _ [ChannelOpenFailed (c_connection c0) e]).
  - rewrite (start_run_ok _ _ _ E). destruct Hs as [Hb Hh]. split; simpl.
    + by apply opened_before_quiet.
    + intros ch [= <-]. exists (length (trace (world s))).
      by apply list_lookup_middle.
Qed.

Lemma accounted_reset s : accounted s -> accounted (reset T s).2.
Proof. intros H. rewrite reset_run. by apply accounted_start, accounted_stop. Qed.

Lemma accounted_perform k s : accounted s -> accounted (perform T k s).2.
Proof.
  intros H. destruct k as [c0|c0| |c0|body]; simpl.
  - by apply accounted_start.
  - by apply accounted_stop.
  - by apply accounted_reset.
  - rewrite shutdown_run. apply accounted_stop.
    apply (accounted_quiet s _ (OnStop :: cancelling T s)); [done..| |done].
    unfold cancelling. by destruct (consumer (box s)).
  - destruct (on_message_cases T body s)
      as [(evs & -> & Hc)|[(e & evs & -> & Hc)|(evs & -> & Hc)]].
    + by apply (accounted_quiet s _ (ClockForward :: evs)).
    + by apply (accounted_quiet s _ (ClockForward :: evs)).
    + apply accounted_reset.
      by apply (accounted_quiet s _ (ClockForward :: evs)).
Qed.

End Accounting.

(** X12: over any sequence of calls on a newly constructed mailbox, the
    mailbox only closes channels it opened: every close on the trace is
    of a channel whose opening comes earlier on the trace, and the
    channel the node holds is one that was opened. *)
Theorem history_closes_only_opened (T : Transport)
    (Panel_data : gmap string handler) (cw : Ctx) (t n : nat) (ks : list call) :
  let s := history T ks (constructed Panel_data cw t n []) in
  (forall i ch r, trace (world s) !! i = Some (ChannelClose ch r) ->
     exists j, j < i /\ trace (world s) !! j = Some (ChannelOpen ch)) /\
  (forall ch, channel (node (box s)) = Some ch ->
     exists j, trace (world s) !! j = Some (ChannelOpen ch)).
Proof.
  cbv zeta.
  assert (H : forall s, accounted s -> accounted (history T ks s)).
  { induction ks as [|k0 ks' IH]; intros s Hs; simpl; [done|].
    by apply IH, accounted_perform. }
  apply (H (constructed Panel_data cw t n [])). split.
  - intros i ch r Hi. by destruct i.
  - by intros ch.
Qed.

Lemma history_closes_only_opened_witness :
  let s := history broken_teardown [CallStart worker; CallStop worker; CallStop worker] boot in
  trace (world s) !! 5 =
    Some (ChannelClose {| channel_id := 0; channel_connection := 7 |}
            (Some (TransportError "channel gone"))) /\
  exists j, j < 5 /\
    trace (world s) !! j = Some (ChannelOpen {| channel_id := 0; channel_connection := 7 |}).
Proof.
  split; [reflexivity|].
  exact (proj1 (history_closes_only_opened broken_teardown panel worker 0 0
                  [CallStart worker; CallStop worker; CallStop worker])
           5 {| channel_id := 0; channel_connection := 7 |}
           (Some (TransportError "channel gone")) eq_refl).
Defined.

Section Tally.

Variable T : Transport.

(** A delivery that does not reset opens no channel and creates no
    consumer. *)
Lemma on_message_quiet_or_reset body s :
  (exists evs, (on_message T body s).2 = ticked s evs /\
               count is_open evs = 0 /\ count is_created evs = 0) \/
  (exists evs, on_message T body s = reset T (ticked s evs) /\
               count is_open evs = 0 /\ count is_created evs = 0).
Proof.
  destruct (handlers (node (box s)) !! command body) as [h|] eqn:E.
  2:{ left. eexists. by rewrite (on_message_absent T _ _ E). }
  destruct (h (node_state (node (box s))) (arguments body)) as [reply|e] eqn:Eh.
  { left. eexists. by rewrite (on_message_returns T _ _ _ _ E Eh). }
  pose proof (on_message_raises T _ _ _ _ E Eh) as Hrun. cbv zeta in Hrun.
  destruct (isinstance_KeyError e).
  { left. eexists. by rewrite Hrun. }
  destruct (isinstance_Exception e).
  - right. eexists. by rewrite Hrun.
  - left. eexists. by rewrite Hrun.
Qed.

Lemma count_opening_pair c0 s :
  count is_created (opening T c0 s) = count is_open (opening T c0 s).
Proof. unfold opening. by destruct (channel_result T _ _). Qed.

Lemma tally_reset s :
  count is_created (trace (world (reset T s).2)) + count is_open (trace (world s)) =
  count is_open (trace (world (reset T s).2)) + count is_created (trace (world s)).
Proof.
  rewrite reset_trace. cbn [count].
  rewrite !count_app. cbn [count is_created is_open].
  rewrite !count_app, !count_closing, count_opening_pair.
  destruct (channel (node (box s))); simpl; lia.
Qed.

Lemma tally_perform k s :
  count is_created (trace (world (perform T k s).2)) + count is_open (trace (world s)) =
  count is_open (trace (world (perform T k s).2)) + count is_created (trace (world s)).
Proof.
  destruct k as [c0|c0| |c0|body]; simpl.
  - rewrite start_trace, !count_app, count_opening_pair. lia.
  - rewrite stop_trace, !count_app. cbn [count is_created is_open].
    rewrite !count_closing. destruct (channel (node (box s))); simpl; lia.
  - apply tally_reset.
  - rewrite shutdown_trace, !count_app. cbn [count is_created is_open].
    rewrite !count_app. cbn [count is_created is_open].
    rewrite !count_closing. unfold cancelling.
    destruct (consumer (box s)), (channel (node (box (logged s _)))); simpl; lia.
  - destruct (on_message_quiet_or_reset body s)
      as [(evs & -> & Ho & Hc)|(evs & -> & Ho & Hc)].
    + simpl. rewrite !count_app. simpl. lia.
    + pose proof (tally_reset (ticked s evs)) as H. simpl in H.
      rewrite !count_app in H. simpl in H. lia.
Qed.

End Tally.

(** X13: over any sequence of calls on a newly constructed mailbox, as
    many consumers are created as channels are opened: [start] is the
    only place where either happens, and it never does one without the
    other. *)
Theorem history_one_consumer_per_channel (T : Transport)
    (Panel_data : gmap string handler) (cw : Ctx) (t n : nat) (ks : list call) :
  let s := history T ks (constructed Panel_data cw t n []) in
  count is_created (trace (world s)) = count is_open (trace (world s)).
Proof.
  cbv zeta.
  assert (H : forall s,
            count is_created (trace (world (history T ks s))) +
              count is_open (trace (world s)) =
            count is_open (trace (world (history T ks s))) +
              count is_created (trace (world s))).
  { induction ks as [|k0 ks' IH]; intros s; simpl; [lia|].
    pose proof (IH (perform T k0 s).2). pose proof (tally_perform T k0 s). lia. }
  specialize (H (constructed Panel_data cw t n [])). simpl in H. lia.
Qed.
